(** * IDataType: the logical-type facade of the column store

    A shallow embedding of [dbms/src/DataTypes/IDataType.cpp]: the substream
    path resolver ([getFileNameForStream]), the domain dispatch facade
    ([getName], [appendDomain], the [serializeAsText*] family), the base
    operations that only throw, and the size-hint estimator
    ([updateAvgValueSizeHint]). *)

From Stdlib Require Import ZArith List String Ascii Bool Lia.
From Stdlib Require Import DecimalString.
From Stdlib Require Import Floats.
From Stdlib Require Uint63 FloatLemmas DecimalN.
Import ListNotations.

Local Open Scope Z_scope.
Local Open Scope string_scope.

(** ** Shared vocabulary *)

(** [size_t] is a 64-bit unsigned integer: values live in [0, 2^64) and
    arithmetic wraps. *)
Definition SIZE_MOD : Z := 2 ^ 64.

Definition size_t_wrap (n : Z) : Z := n mod SIZE_MOD.

(** Modelled from the spec: [toString] of IO/WriteHelpers.h, which is not among
    the sources; "append [.size] followed by the current [array_level] value",
    i.e. the decimal rendering of an unsigned integer. *)
Definition toString (n : Z) : string :=
  NilEmpty.string_of_uint (N.to_uint (Z.to_N n)).

(** ** Substream path resolver *)

Module StreamName.

(** Modelled from the spec: [IDataType::Substream] of DataTypes/IDataType.h,
    which is not among the sources; "each marker has a kind - NullMap,
    ArraySizes, ArrayElements, TupleElement, DictionaryKeys - and, for
    TupleElement, an associated field name". *)
Inductive SubstreamType : Type :=
  | ArrayElements
  | ArraySizes
  | NullMap
  | TupleElement
  | DictionaryKeys.

Record Substream : Type := mkSubstream {
  type : SubstreamType;
  tuple_element_name : string
}.

Definition SubstreamPath : Type := list Substream.

Definition SubstreamType_eqb (a b : SubstreamType) : bool :=
  match a, b with
  | ArrayElements, ArrayElements
  | ArraySizes, ArraySizes
  | NullMap, NullMap
  | TupleElement, TupleElement
  | DictionaryKeys, DictionaryKeys => true
  | _, _ => false
  end.

(** Markers without a field name. *)
Definition marker (t : SubstreamType) : Substream := mkSubstream t "".

Definition tuple_element (field : string) : Substream :=
  mkSubstream TupleElement field.

Section Resolver.

(** [escapeForFileName] (Common/escapeForFileName.h) and
    [Nested::extractTableName] (DataTypes/NestedUtils.h) are collaborators that
    are not among the sources: the resolver is stated for any pair of them. *)
Variable escapeForFileName : string -> string.
Variable extractTableName : string -> string.

(** The flag computed at lines 107-111: the path has exactly one marker, that
    marker is [ArraySizes], and the nested table name is not the column name.
    [path[0]] is only read behind [path.size() == 1]. *)
Definition is_sizes_of_nested_type (column_name : string) (path : SubstreamPath) : bool :=
  let nested_table_name := extractTableName column_name in
  (Nat.eqb (List.length path) 1)
  && match nth_error path 0 with
     | Some elem => SubstreamType_eqb (type elem) ArraySizes
     | None => false
     end
  && negb (String.eqb nested_table_name column_name).

(** The argument of [escapeForFileName] at line 114. *)
Definition stream_base (column_name : string) (path : SubstreamPath) : string :=
  if is_sizes_of_nested_type column_name path
  then extractTableName column_name
  else column_name.

(** One iteration of the loop at lines 115-133 on the pair
    [(array_level, stream_name)]. [++array_level] is a [size_t] increment. *)
Definition append_substream (st : Z * string) (elem : Substream) : Z * string :=
  let '(array_level, stream_name) := st in
  match type elem with
  | NullMap => (array_level, stream_name ++ ".null")
  | ArraySizes => (array_level, stream_name ++ (".size" ++ toString array_level))
  | ArrayElements => (size_t_wrap (array_level + 1), stream_name)
  | TupleElement =>
      (array_level, stream_name ++ ("%2E" ++ escapeForFileName (tuple_element_name elem)))
  | DictionaryKeys => (array_level, stream_name ++ ".dict")
  end.

Definition getFileNameForStream (column_name : string) (path : SubstreamPath) : string :=
  let array_level := 0 in
  let stream_name := escapeForFileName (stream_base column_name path) in
  snd (fold_left append_substream path (array_level, stream_name)).

(** The suffix grammar in the words of the specification: the suffix each
    marker contributes, in path order, under a running nesting counter that is
    an unbounded integer. *)
Fixpoint stream_suffixes (array_level : Z) (path : SubstreamPath) : string :=
  match path with
  | [] => ""
  | elem :: rest =>
      match type elem with
      | NullMap => ".null" ++ stream_suffixes array_level rest
      | ArraySizes => (".size" ++ toString array_level) ++ stream_suffixes array_level rest
      | ArrayElements => stream_suffixes (array_level + 1) rest
      | TupleElement =>
          ("%2E" ++ escapeForFileName (tuple_element_name elem))
          ++ stream_suffixes array_level rest
      | DictionaryKeys => ".dict" ++ stream_suffixes array_level rest
      end
  end.

End Resolver.

(** One pair of helpers to run the resolver on. The escaping keeps ASCII
    letters, digits and the underscore and writes every other byte as [%XX]
    (so a dot becomes [%2E], the separator the source's comment speaks of);
    the table name is the part of a dotted name before its first dot. *)
Definition is_word_char (c : ascii) : bool :=
  let n := nat_of_ascii c in
  ((48 <=? n) && (n <=? 57) || (65 <=? n) && (n <=? 90)
   || (97 <=? n) && (n <=? 122) || (n =? 95))%nat.

Definition hex_digit (n : nat) : ascii :=
  ascii_of_nat (if (n <? 10)%nat then 48 + n else 55 + n).

Fixpoint percent_escape (s : string) : string :=
  match s with
  | EmptyString => EmptyString
  | String c rest =>
      if is_word_char c then String c (percent_escape rest)
      else
        let n := nat_of_ascii c in
        String "%" (String (hex_digit (n / 16)) (String (hex_digit (n mod 16))
          (percent_escape rest)))
  end.

Fixpoint before_first_dot (s : string) : string :=
  match s with
  | EmptyString => EmptyString
  | String c rest =>
      if Ascii.eqb c "." then EmptyString else String c (before_first_dot rest)
  end.

(** A table-name helper under which the column ["x"] is a member of the nested
    group ["n"] and every other column is its own table. *)
Definition member_of_n (column_name : string) : string :=
  if String.eqb column_name "x" then "n" else column_name.

End StreamName.

(** ** Type contract and dispatch facade *)

Module Facade.

(** The error codes the file imports from [ErrorCodes] (lines 19-24). *)
Inductive ErrorCode : Type :=
  | MULTIPLE_STREAMS_REQUIRED
  | LOGICAL_ERROR
  | DATA_TYPE_CANNOT_BE_PROMOTED.

(** [Exception(message, code)]. *)
Record Exception : Type := mkException {
  message : string;
  code : ErrorCode
}.

(** A call either returns or throws. *)
Inductive outcome (A : Type) : Type :=
  | Returned (a : A)
  | Thrown (e : Exception).

Arguments Returned {A} a.
Arguments Thrown {A} e.

(** The six text format families. *)
Inductive TextFormat : Type :=
  | Escaped
  | Quoted
  | CSV
  | Plain
  | JSON
  | XML.

Section Types.

(** Columns, buffers and format settings are opaque here. *)
Context {IColumn WriteBuffer ReadBuffer FormatSettings : Type}.

(** A text writer gets [(column, row_num, ostr, settings)] and leaves the
    buffer in a new state; a text reader gets [(column, istr, settings)] and
    leaves the column and the buffer in new states. Either may throw, and the
    state reached at that point is part of the result. *)
Definition serialize_fn : Type :=
  IColumn -> Z -> WriteBuffer -> FormatSettings -> outcome unit * WriteBuffer.

Definition deserialize_fn : Type :=
  IColumn -> ReadBuffer -> FormatSettings -> outcome unit * (IColumn * ReadBuffer).

(** The ten text methods the facade calls, on the type itself and on a domain
    with custom serialization (lines 143-261). *)
Record TextSerialization : Type := mkTextSerialization {
  serializeTextEscaped : serialize_fn;
  deserializeTextEscaped : deserialize_fn;
  serializeTextQuoted : serialize_fn;
  deserializeTextQuoted : deserialize_fn;
  serializeTextCSV : serialize_fn;
  deserializeTextCSV : deserialize_fn;
  serializeText : serialize_fn;
  serializeTextJSON : serialize_fn;
  deserializeTextJSON : deserialize_fn;
  serializeTextXML : serialize_fn
}.

#[local] Unset Elimination Schemes.

(** Modelled from the spec: the class [IDataTypeDomain] of
    DataTypes/IDataTypeDomain.h, which is not among the sources. A domain has
    "a display name, optionally a custom text-serialization capability", and
    "domains form a singly-linked, append-only chain": [delegate] is the next
    link. [custom_serialization] is what
    [dynamic_cast<const IDataTypeDomainCustomSerialization *>] finds; it is
    fixed by the object's class, so no method call changes it. *)
Inductive IDataTypeDomain : Type := mkDomain {
  domain_name : string;
  custom_serialization : option TextSerialization;
  delegate : option IDataTypeDomain
}.

#[local] Set Elimination Schemes.

(** Modelled from the spec: [IDataTypeDomain::appendDomain], which is not among
    the sources; a domain asked to append "append[s] the new domain after
    itself, extending the chain". *)
Fixpoint IDataTypeDomain_appendDomain (d new_domain : IDataTypeDomain) : IDataTypeDomain :=
  match d with
  | mkDomain name custom next =>
      mkDomain name custom
        (Some match next with
              | None => new_domain
              | Some d' => IDataTypeDomain_appendDomain d' new_domain
              end)
  end.

(** The members of a chain, first link first. *)
Fixpoint chain (d : IDataTypeDomain) : list (string * option TextSerialization) :=
  match d with
  | mkDomain name custom next =>
      (name, custom) :: match next with
                        | None => []
                        | Some d' => chain d'
                        end
  end.

(** A logical type: its family name and own text methods (virtual, supplied by
    the concrete type) and the mutable [domain] pointer. *)
Record IDataType : Type := mkDataType {
  getFamilyName : string;
  text : TextSerialization;
  domain : option IDataTypeDomain
}.

(** [IDataType::IDataType()]: [domain(nullptr)]. *)
Definition IDataType_new (family : string) (own : TextSerialization) : IDataType :=
  mkDataType family own None.

(** The domains attached to a type, head first. *)
Definition attached (t : IDataType) : list (string * option TextSerialization) :=
  match domain t with
  | None => []
  | Some d => chain d
  end.

(** [IDataTypeDomain::getName] is declared in DataTypes/IDataTypeDomain.h; how
    a domain composes the name it reports is left open. *)
Variable IDataTypeDomain_getName : IDataTypeDomain -> string.

Definition doGetName (t : IDataType) : string := getFamilyName t.

Definition getName (t : IDataType) : string :=
  match domain t with
  | Some d => IDataTypeDomain_getName d
  | None => doGetName t
  end.

(** [appendDomain] mutates [domain]; the type after the call is returned. *)
Definition appendDomain (t : IDataType) (new_domain : IDataTypeDomain) : IDataType :=
  match domain t with
  | None => mkDataType (getFamilyName t) (text t) (Some new_domain)
  | Some d =>
      mkDataType (getFamilyName t) (text t)
        (Some (IDataTypeDomain_appendDomain d new_domain))
  end.

(** [dynamic_cast<const IDataTypeDomainCustomSerialization *>(domain.get())]:
    null for a null pointer and for a domain without the capability. *)
Definition dynamic_cast_custom (d : option IDataTypeDomain) : option TextSerialization :=
  match d with
  | Some d => custom_serialization d
  | None => None
  end.

(** *** Base operations that only throw (lines 81-99) *)

Definition promoteNumericType (t : IDataType) : outcome IDataType :=
  Thrown (mkException ("Data type " ++ getName t ++ " can't be promoted.")
            DATA_TYPE_CANNOT_BE_PROMOTED).

Definition serializeBinaryBulk (t : IDataType) (column : IColumn) (ostr : WriteBuffer)
    (offset limit : Z) : outcome unit * WriteBuffer :=
  (Thrown (mkException ("Data type " ++ getName t ++ " must be serialized with multiple streams")
             MULTIPLE_STREAMS_REQUIRED),
   ostr).

Definition deserializeBinaryBulk (t : IDataType) (column : IColumn)
    (istr : ReadBuffer) (limit : Z) (avg_value_size_hint : float)
    : outcome unit * (IColumn * ReadBuffer) :=
  (Thrown (mkException ("Data type " ++ getName t ++ " must be deserialized with multiple streams")
             MULTIPLE_STREAMS_REQUIRED),
   (column, istr)).

Definition getSizeOfValueInMemory (t : IDataType) : outcome Z :=
  Thrown (mkException ("Value of type " ++ getName t ++ " in memory is not of fixed size.")
            LOGICAL_ERROR).

(** *** Text dispatch (lines 143-261) *)

Definition serializeAsTextEscaped (t : IDataType) : serialize_fn :=
  fun column row_num ostr settings =>
    match dynamic_cast_custom (domain t) with
    | Some ser_domain => serializeTextEscaped ser_domain column row_num ostr settings
    | None => serializeTextEscaped (text t) column row_num ostr settings
    end.

Definition deserializeAsTextEscaped (t : IDataType) : deserialize_fn :=
  fun column istr settings =>
    match dynamic_cast_custom (domain t) with
    | Some ser_domain => deserializeTextEscaped ser_domain column istr settings
    | None => deserializeTextEscaped (text t) column istr settings
    end.

Definition serializeAsTextQuoted (t : IDataType) : serialize_fn :=
  fun column row_num ostr settings =>
    match dynamic_cast_custom (domain t) with
    | Some ser_domain => serializeTextQuoted ser_domain column row_num ostr settings
    | None => serializeTextQuoted (text t) column row_num ostr settings
    end.

Definition deserializeAsTextQuoted (t : IDataType) : deserialize_fn :=
  fun column istr settings =>
    match dynamic_cast_custom (domain t) with
    | Some ser_domain => deserializeTextQuoted ser_domain column istr settings
    | None => deserializeTextQuoted (text t) column istr settings
    end.

Definition serializeAsTextCSV (t : IDataType) : serialize_fn :=
  fun column row_num ostr settings =>
    match dynamic_cast_custom (domain t) with
    | Some ser_domain => serializeTextCSV ser_domain column row_num ostr settings
    | None => serializeTextCSV (text t) column row_num ostr settings
    end.

Definition deserializeAsTextCSV (t : IDataType) : deserialize_fn :=
  fun column istr settings =>
    match dynamic_cast_custom (domain t) with
    | Some ser_domain => deserializeTextCSV ser_domain column istr settings
    | None => deserializeTextCSV (text t) column istr settings
    end.

Definition serializeAsText (t : IDataType) : serialize_fn :=
  fun column row_num ostr settings =>
    match dynamic_cast_custom (domain t) with
    | Some ser_domain => serializeText ser_domain column row_num ostr settings
    | None => serializeText (text t) column row_num ostr settings
    end.

Definition serializeAsTextJSON (t : IDataType) : serialize_fn :=
  fun column row_num ostr settings =>
    match dynamic_cast_custom (domain t) with
    | Some ser_domain => serializeTextJSON ser_domain column row_num ostr settings
    | None => serializeTextJSON (text t) column row_num ostr settings
    end.

Definition deserializeAsTextJSON (t : IDataType) : deserialize_fn :=
  fun column istr settings =>
    match dynamic_cast_custom (domain t) with
    | Some ser_domain => deserializeTextJSON ser_domain column istr settings
    | None => deserializeTextJSON (text t) column istr settings
    end.

Definition serializeAsTextXML (t : IDataType) : serialize_fn :=
  fun column row_num ostr settings =>
    match dynamic_cast_custom (domain t) with
    | Some ser_domain => serializeTextXML ser_domain column row_num ostr settings
    | None => serializeTextXML (text t) column row_num ostr settings
    end.

(** *** The facade by format family

    The member functions of lines 143-261, and the methods they call, indexed
    by format. The file defines a writer for every family; it defines a reader
    for four of them: there is no [deserializeAsText] and no
    [deserializeAsTextXML]. *)

Definition serializeAsText_of (f : TextFormat) : IDataType -> serialize_fn :=
  match f with
  | Escaped => serializeAsTextEscaped
  | Quoted => serializeAsTextQuoted
  | CSV => serializeAsTextCSV
  | Plain => serializeAsText
  | JSON => serializeAsTextJSON
  | XML => serializeAsTextXML
  end.

Definition deserializeAsText_of (f : TextFormat) : option (IDataType -> deserialize_fn) :=
  match f with
  | Escaped => Some deserializeAsTextEscaped
  | Quoted => Some deserializeAsTextQuoted
  | CSV => Some deserializeAsTextCSV
  | Plain => None
  | JSON => Some deserializeAsTextJSON
  | XML => None
  end.

Definition serializeText_of (f : TextFormat) : TextSerialization -> serialize_fn :=
  match f with
  | Escaped => serializeTextEscaped
  | Quoted => serializeTextQuoted
  | CSV => serializeTextCSV
  | Plain => serializeText
  | JSON => serializeTextJSON
  | XML => serializeTextXML
  end.

Definition deserializeText_of (f : TextFormat) : option (TextSerialization -> deserialize_fn) :=
  match f with
  | Escaped => Some deserializeTextEscaped
  | Quoted => Some deserializeTextQuoted
  | CSV => Some deserializeTextCSV
  | Plain => None
  | JSON => Some deserializeTextJSON
  | XML => None
  end.

(** The implementation a call on [t] is handed to: the attached domain when it
    has the custom-serialization capability, the type's own methods
    otherwise. *)
Definition text_handler (t : IDataType) : TextSerialization :=
  match dynamic_cast_custom (domain t) with
  | Some ser_domain => ser_domain
  | None => text t
  end.

End Types.

Arguments TextSerialization : clear implicits.
Arguments IDataTypeDomain : clear implicits.
Arguments IDataType : clear implicits.

End Facade.

(** ** Size-hint estimator *)

Module SizeHint.

Local Open Scope float_scope.

(** The two queries the estimator makes of a column, both [size_t]. *)
Record IColumn : Type := mkColumn {
  size : Z;
  byteSize : Z
}.

(** Conversion of a [size_t] to [double]: the nearest binary64 value, ties to
    even. *)
Definition double_of_size_t (n : Z) : float :=
  SF2Prim (binary_normalize prec emax n 0 false).

(** [std::min(a, b)] is [(b < a) ? b : a]. *)
Definition std_min (a b : float) : float :=
  if b <? a then b else a.

(** [updateAvgValueSizeHint] updates [avg_value_size_hint] in place; the new
    value is returned. [x > y] on doubles is [y < x]. *)
Definition updateAvgValueSizeHint (column : IColumn) (avg_value_size_hint : float) : float :=
  let column_size := size column in
  if (10 <? column_size)%Z then
    let current_avg_value_size :=
      double_of_size_t (byteSize column) / double_of_size_t column_size in
    if avg_value_size_hint <? current_avg_value_size then
      std_min 1024 current_avg_value_size
    else if current_avg_value_size * 2 <? avg_value_size_hint then
      (current_avg_value_size + avg_value_size_hint * 3) / 4
    else avg_value_size_hint
  else avg_value_size_hint.

(** The update rule in the words of the specification, on a prior hint [h], a
    row count [n] and a byte size [b]. [fmin] is the smaller of two doubles. *)
Definition fmin (x y : float) : float :=
  if x <=? y then x else y.

Definition hint_rule (h : float) (n b : Z) : float :=
  if (n <=? 10)%Z then h
  else
    let avg := double_of_size_t b / double_of_size_t n in
    if h <? avg then fmin avg 1024
    else if avg * 2 <? h then (avg + h * 3) / 4
    else h.

(** The average value size the estimator measures on a batch. *)
Definition batch_avg (column : IColumn) : float :=
  double_of_size_t (byteSize column) / double_of_size_t (size column).

(** A batch of [n] rows of [s] bytes each. *)
Definition batch (n s : Z) : IColumn := mkColumn n (n * s).

(** The hint after [k] batches, all equal to [column]. *)
Fixpoint feed (k : nat) (column : IColumn) (hint : float) : float :=
  match k with
  | O => hint
  | S k' => feed k' column (updateAvgValueSizeHint column hint)
  end.

End SizeHint.

(** ** The order of binary64 values

    [SFcompare] orders the non-NaN values by sign class, then exponent, then
    mantissa. [SFrank] makes that lexicographic key explicit, so that the facts
    about [<?] and [<=?] the estimator needs become linear arithmetic. *)

Module FloatKey.

Definition SFrank (x : spec_float) : option (Z * Z * Z) :=
  match x with
  | S754_nan => None
  | S754_infinity true => Some (-2, 0, 0)
  | S754_infinity false => Some (2, 0, 0)
  | S754_zero _ => Some (0, 0, 0)
  | S754_finite true m e => Some (-1, - e, Z.neg m)
  | S754_finite false m e => Some (1, e, Z.pos m)
  end.

Definition rank (x : float) : option (Z * Z * Z) := SFrank (Prim2SF x).

Definition lex_lt (p q : Z * Z * Z) : Prop :=
  let '(a, b, c) := p in
  let '(a', b', c') := q in
  a < a' \/ (a = a' /\ (b < b' \/ (b = b' /\ c < c'))).

Definition lex_le (p q : Z * Z * Z) : Prop :=
  lex_lt p q \/ p = q.

(** The double [2.0]. *)
Definition SF_two : spec_float := S754_finite false 4503599627370496 (-51).

(** No sign bit (or NaN). *)
Definition sign_clear (x : spec_float) : Prop :=
  match x with
  | S754_nan => True
  | S754_zero s | S754_infinity s | S754_finite s _ _ => s = false
  end.

End FloatKey.

(** ** A concrete type with two domains

    A small instance to run the facade on: columns and settings carry nothing,
    buffers are strings, and every writer appends the name of its owner. *)

Module FacadeExample.

Import Facade.

Definition Text : Type := TextSerialization unit string string unit.
Definition Domain : Type := IDataTypeDomain unit string string unit.
Definition DataType : Type := IDataType unit string string unit.

Definition writer (owner : string) : @serialize_fn unit string unit :=
  fun _ _ ostr _ => (Returned tt, ostr ++ owner).

Definition reader : @deserialize_fn unit string unit :=
  fun column istr _ => (Returned tt, (column, istr)).

Definition text_of (owner : string) : Text :=
  mkTextSerialization (writer owner) reader (writer owner) reader (writer owner) reader
    (writer owner) (writer owner) reader (writer owner).

(** A physical type, a domain that only renames it, and a domain with its own
    text representation. *)
Definition UInt32 : DataType := IDataType_new "UInt32" (text_of "UInt32").

Definition alias_domain : Domain := mkDomain "Alias" None None.

Definition IPv4_domain : Domain := mkDomain "IPv4" (Some (text_of "IPv4")) None.

(** The type after attaching the two domains, in either order. *)
Definition alias_then_IPv4 : DataType :=
  appendDomain (appendDomain UInt32 alias_domain) IPv4_domain.

Definition IPv4_then_alias : DataType :=
  appendDomain (appendDomain UInt32 IPv4_domain) alias_domain.

End FacadeExample.

(** ** Paths and runs used by the further properties *)

Module StreamPaths.

Import StreamName.

(** The number of [ArrayElements] markers of a path: the value the loop's
    counter has reached at the end of the path. *)
Fixpoint array_depth (path : SubstreamPath) : Z :=
  match path with
  | [] => 0
  | elem :: rest =>
      match type elem with
      | ArrayElements => 1 + array_depth rest
      | _ => array_depth rest
      end
  end.

(** [k] levels down into nested arrays. *)
Definition descend (k : nat) : SubstreamPath := repeat (marker ArrayElements) k.

(** The sizes stream [k] levels down. *)
Definition sizes_at_depth (k : nat) : SubstreamPath :=
  (descend k ++ [marker ArraySizes])%list.

(** The name of a tuple field stored as a top-level column: [a.b]. *)
Definition dotted (a b : string) : string := a ++ "." ++ b.

End StreamPaths.

Module SizeHintRuns.

Import SizeHint.

(** The hint after a sequence of batches, each passed to
    [updateAvgValueSizeHint] with the hint the previous one left. *)
Definition read_batches (columns : list IColumn) (hint : float) : float :=
  fold_left (fun h column => updateAvgValueSizeHint column h) columns hint.

End SizeHintRuns.

(** * Properties *)

(** ** Substream path resolver *)

Module StreamNameFacts.

Import StreamName.

Lemma string_app_assoc (a b c : string) : (a ++ b) ++ c = a ++ (b ++ c).
Proof.
  induction a as [ | ch a IH]; cbn.
  - reflexivity.
  - rewrite IH. reflexivity.
Qed.

Lemma string_app_nil_r (a : string) : a ++ "" = a.
Proof.
  induction a as [ | ch a IH]; cbn.
  - reflexivity.
  - rewrite IH. reflexivity.
Qed.

Section Resolver.

Variable escapeForFileName : string -> string.
Variable extractTableName : string -> string.

Local Abbreviation getFileNameForStream :=
  (StreamName.getFileNameForStream escapeForFileName extractTableName).
Local Abbreviation is_sizes_of_nested_type :=
  (StreamName.is_sizes_of_nested_type extractTableName).
Local Abbreviation stream_base := (StreamName.stream_base extractTableName).
Local Abbreviation append_substream := (StreamName.append_substream escapeForFileName).
Local Abbreviation stream_suffixes := (StreamName.stream_suffixes escapeForFileName).

(** The loop never wraps the counter while the path is shorter than [2^64],
    and then it appends the specified suffixes. *)
Lemma loop_appends_suffixes (path : SubstreamPath) :
  forall (array_level : Z) (stream_name : string),
    0 <= array_level ->
    array_level + Z.of_nat (List.length path) < SIZE_MOD ->
    snd (fold_left append_substream path (array_level, stream_name))
    = stream_name ++ stream_suffixes array_level path.
Proof.
  induction path as [ | elem rest IH]; intros array_level stream_name Hlo Hhi.
  - cbn. rewrite string_app_nil_r. reflexivity.
  - cbn [fold_left stream_suffixes]. cbn [List.length] in Hhi.
    unfold StreamName.append_substream at 2.
    destruct (type elem).
    + unfold size_t_wrap. rewrite Z.mod_small by lia.
      rewrite IH by lia. reflexivity.
    + rewrite IH by lia. rewrite string_app_assoc. reflexivity.
    + rewrite IH by lia. rewrite string_app_assoc. reflexivity.
    + rewrite IH by lia. rewrite string_app_assoc. reflexivity.
    + rewrite IH by lia. rewrite string_app_assoc. reflexivity.
Qed.

Lemma getFileNameForStream_unfold (column_name : string) (path : SubstreamPath) :
  Z.of_nat (List.length path) < SIZE_MOD ->
  getFileNameForStream column_name path
  = escapeForFileName (stream_base column_name path) ++ stream_suffixes 0 path.
Proof.
  intros Hlen. unfold StreamName.getFileNameForStream.
  apply loop_appends_suffixes; lia.
Qed.

Lemma is_sizes_of_nested_type_spec (column_name : string) (path : SubstreamPath) :
  is_sizes_of_nested_type column_name path = true <->
  (exists elem, path = [elem] /\ type elem = ArraySizes)
  /\ extractTableName column_name <> column_name.
Proof.
  unfold StreamName.is_sizes_of_nested_type.
  rewrite !andb_true_iff, negb_true_iff, String.eqb_neq, Nat.eqb_eq.
  split.
  - intros [[Hlen Hty] Hne]. split; [ | exact Hne].
    destruct path as [ | elem [ | ? ?]]; try discriminate.
    exists elem. split; [reflexivity | ].
    cbn in Hty. destruct (type elem); try discriminate. reflexivity.
  - intros [(elem & -> & Hty) Hne]. cbn. rewrite Hty. auto.
Qed.

(** C1. For every column name and every path (a [std::vector], so shorter
    than [2^64]), [getFileNameForStream] returns the escaped base identifier
    followed, in path order, by the suffixes of the grammar: [.null], [.size]
    and the current nesting level, nothing but one more level for
    [ArrayElements], [%2E] and the escaped field name, [.dict]. An empty path
    yields the bare escaped name, and ["x"] with [ArrayElements, ArraySizes]
    yields the escaped ["x"] followed by [.size1]. *)
Theorem getFileNameForStream_suffixes (column_name : string) (path : SubstreamPath) :
  Z.of_nat (List.length path) < SIZE_MOD ->
  getFileNameForStream column_name path
  = escapeForFileName (stream_base column_name path) ++ stream_suffixes 0 path
  /\ getFileNameForStream column_name [] = escapeForFileName column_name
  /\ getFileNameForStream "x" [marker ArrayElements; marker ArraySizes]
     = escapeForFileName "x" ++ ".size1"
  /\ (escapeForFileName "x" = "x" ->
      getFileNameForStream "x" [marker ArrayElements; marker ArraySizes] = "x.size1").
Proof.
  intros Hlen.
  assert (getFileNameForStream "x" [marker ArrayElements; marker ArraySizes]
          = escapeForFileName "x" ++ ".size1") as Hgolden.
  { rewrite getFileNameForStream_unfold by (cbn; unfold SIZE_MOD; lia). reflexivity. }
  split; [apply getFileNameForStream_unfold; exact Hlen | ].
  split; [reflexivity | ].
  split; [exact Hgolden | ].
  intros Hx. rewrite Hgolden, Hx. reflexivity.
Qed.

(** C2. The nested table name is the base identifier exactly when the path is
    a single [ArraySizes] marker and the nested table name differs from the
    column name; otherwise the base is the column name. A column of nested
    group ["n"] with path [ArraySizes] yields ["n.size0"]. *)
Theorem nested_sizes_share_base (column_name : string) (path : SubstreamPath) :
  Z.of_nat (List.length path) < SIZE_MOD ->
  ((exists elem, path = [elem] /\ type elem = ArraySizes)
   /\ extractTableName column_name <> column_name ->
   stream_base column_name path = extractTableName column_name
   /\ getFileNameForStream column_name path
      = escapeForFileName (extractTableName column_name) ++ stream_suffixes 0 path)
  /\ (~ ((exists elem, path = [elem] /\ type elem = ArraySizes)
         /\ extractTableName column_name <> column_name) ->
      stream_base column_name path = column_name
      /\ getFileNameForStream column_name path
         = escapeForFileName column_name ++ stream_suffixes 0 path)
  /\ (extractTableName column_name = "n" -> column_name <> "n" ->
      escapeForFileName "n" = "n" ->
      getFileNameForStream column_name [marker ArraySizes] = "n.size0").
Proof.
  intros Hlen.
  pose proof (getFileNameForStream_unfold column_name path Hlen) as Hout.
  pose proof (is_sizes_of_nested_type_spec column_name path) as Hflag.
  unfold StreamName.stream_base in *.
  split; [ | split].
  - intros Hshared. apply Hflag in Hshared. rewrite Hshared in *. auto.
  - intros Hown.
    destruct (is_sizes_of_nested_type column_name path) eqn:E.
    + exfalso. apply Hown, Hflag. reflexivity.
    + auto.
  - intros Hgroup Hne Hesc.
    rewrite getFileNameForStream_unfold by (cbn; unfold SIZE_MOD; lia).
    unfold StreamName.stream_base.
    assert (is_sizes_of_nested_type column_name [marker ArraySizes] = true) as ->.
    { apply is_sizes_of_nested_type_spec. split.
      - exists (marker ArraySizes). auto.
      - congruence. }
    rewrite Hgroup, Hesc. reflexivity.
Qed.

End Resolver.

Lemma getFileNameForStream_suffixes_witness :
  getFileNameForStream percent_escape before_first_dot "n.x"
    [marker ArrayElements; marker ArraySizes; tuple_element "a.b";
     marker NullMap; marker ArrayElements; marker ArraySizes; marker DictionaryKeys]
  = "n%2Ex.size1%2Ea%2Eb.null.size2.dict"
  /\ getFileNameForStream percent_escape before_first_dot "x"
       [marker ArrayElements; marker ArraySizes] = "x.size1".
Proof.
  assert (Z.of_nat
            (List.length
               [marker ArrayElements; marker ArraySizes; tuple_element "a.b";
                marker NullMap; marker ArrayElements; marker ArraySizes;
                marker DictionaryKeys]) < SIZE_MOD) as Hlen
    by (vm_compute; reflexivity).
  destruct (getFileNameForStream_suffixes percent_escape before_first_dot "n.x" _ Hlen)
    as (Hout & _ & _ & Hx).
  split.
  - rewrite Hout. vm_compute. reflexivity.
  - apply Hx. reflexivity.
Defined.

Lemma nested_sizes_share_base_witness :
  getFileNameForStream percent_escape member_of_n "x" [marker ArraySizes] = "n.size0"
  /\ getFileNameForStream percent_escape before_first_dot "n.x" [marker ArraySizes]
     = "n.size0"
  /\ getFileNameForStream percent_escape before_first_dot "x" [marker ArraySizes]
     = "x.size0"
  /\ getFileNameForStream percent_escape before_first_dot "n.x"
       [marker ArraySizes; marker ArraySizes]
     = "n%2Ex.size0.size0".
Proof.
  assert (forall path : SubstreamPath,
             (List.length path <= 2)%nat -> Z.of_nat (List.length path) < SIZE_MOD)
    as Hshort by (intros path H; unfold SIZE_MOD; lia).
  split; [ | split; [ | split]].
  - apply (nested_sizes_share_base percent_escape member_of_n "x" [marker ArraySizes]).
    + apply Hshort. cbn. lia.
    + reflexivity.
    + discriminate.
    + reflexivity.
  - apply (nested_sizes_share_base percent_escape before_first_dot "n.x"
             [marker ArraySizes]).
    + apply Hshort. cbn. lia.
    + reflexivity.
    + discriminate.
    + reflexivity.
  - destruct (nested_sizes_share_base percent_escape before_first_dot "x"
                [marker ArraySizes]) as (_ & Hown & _).
    + apply Hshort. cbn. lia.
    + destruct Hown as [_ ->].
      * intros [_ Hne]. apply Hne. reflexivity.
      * reflexivity.
  - destruct (nested_sizes_share_base percent_escape before_first_dot "n.x"
                [marker ArraySizes; marker ArraySizes]) as (_ & Hown & _).
    + apply Hshort. cbn. lia.
    + destruct Hown as [_ ->].
      * intros [(elem & Hpath & _) _]. discriminate.
      * reflexivity.
Defined.

End StreamNameFacts.

(** ** Type contract and dispatch facade *)

Module FacadeFacts.

Import Facade.

Section Types.

Context {IColumn WriteBuffer ReadBuffer FormatSettings : Type}.

Local Abbreviation TextSerialization :=
  (Facade.TextSerialization IColumn WriteBuffer ReadBuffer FormatSettings).
Local Abbreviation IDataTypeDomain :=
  (Facade.IDataTypeDomain IColumn WriteBuffer ReadBuffer FormatSettings).
Local Abbreviation IDataType :=
  (Facade.IDataType IColumn WriteBuffer ReadBuffer FormatSettings).

Variable IDataTypeDomain_getName : IDataTypeDomain -> string.

Local Abbreviation getName := (Facade.getName IDataTypeDomain_getName).
Local Abbreviation promoteNumericType := (Facade.promoteNumericType IDataTypeDomain_getName).
Local Abbreviation serializeBinaryBulk := (Facade.serializeBinaryBulk IDataTypeDomain_getName).
Local Abbreviation deserializeBinaryBulk :=
  (Facade.deserializeBinaryBulk IDataTypeDomain_getName).
Local Abbreviation getSizeOfValueInMemory :=
  (Facade.getSizeOfValueInMemory IDataTypeDomain_getName).

(** Induction along a domain chain. *)
Lemma chain_ind (P : IDataTypeDomain -> Prop) :
  (forall name custom, P (mkDomain name custom None)) ->
  (forall name custom d, P d -> P (mkDomain name custom (Some d))) ->
  forall d, P d.
Proof.
  intros Hlast Hnext. fix IH 1.
  intros [name custom [d' | ]].
  - apply Hnext, IH.
  - apply Hlast.
Qed.

Lemma chain_appendDomain (d new_domain : IDataTypeDomain) :
  chain (IDataTypeDomain_appendDomain d new_domain) = (chain d ++ chain new_domain)%list.
Proof.
  induction d as [name custom | name custom d IH] using chain_ind.
  - reflexivity.
  - cbn [IDataTypeDomain_appendDomain chain] in *. rewrite IH. reflexivity.
Qed.

Lemma custom_appendDomain (d new_domain : IDataTypeDomain) :
  custom_serialization (IDataTypeDomain_appendDomain d new_domain)
  = custom_serialization d.
Proof. destruct d; reflexivity. Qed.

Lemma custom_append_all (rest : list IDataTypeDomain) :
  forall d, custom_serialization (fold_left IDataTypeDomain_appendDomain rest d)
            = custom_serialization d.
Proof.
  induction rest as [ | d' rest IH]; intros d; cbn [fold_left].
  - reflexivity.
  - rewrite IH. apply custom_appendDomain.
Qed.

Lemma chain_append_all (rest : list IDataTypeDomain) :
  forall d, chain (fold_left IDataTypeDomain_appendDomain rest d)
            = (chain d ++ List.concat (map chain rest))%list.
Proof.
  induction rest as [ | d' rest IH]; intros d; cbn [fold_left map List.concat].
  - rewrite app_nil_r. reflexivity.
  - rewrite IH, chain_appendDomain, <- app_assoc. reflexivity.
Qed.

Lemma appendDomain_all (rest : list IDataTypeDomain) :
  forall family own d,
    fold_left appendDomain rest (mkDataType family own (Some d))
    = mkDataType family own (Some (fold_left IDataTypeDomain_appendDomain rest d)).
Proof.
  induction rest as [ | d' rest IH]; intros family own d; cbn [fold_left].
  - reflexivity.
  - unfold appendDomain at 2. cbn [domain getFamilyName text]. apply IH.
Qed.

Lemma serializeAsText_of_handler (f : TextFormat) (t : IDataType) :
  serializeAsText_of f t = serializeText_of f (text_handler t).
Proof.
  unfold text_handler.
  destruct f; cbn [serializeAsText_of serializeText_of];
    unfold serializeAsTextEscaped, serializeAsTextQuoted, serializeAsTextCSV,
      serializeAsText, serializeAsTextJSON, serializeAsTextXML;
    destruct (dynamic_cast_custom (domain t)); reflexivity.
Qed.

(** C3 (amended). Every format family has a [serializeAsText*] operation, and
    the escaped, quoted, CSV and JSON families also have a
    [deserializeAsText*] operation; plain and XML have none. Each of these ten
    operations hands the call to the attached domain when it has the
    custom-serialization capability and to the type's own method of the same
    format otherwise, with the column, row number, buffer and settings passed
    on as they are. *)
Theorem text_dispatch (f : TextFormat) (t : IDataType) :
  (forall column row_num ostr settings,
      serializeAsText_of f t column row_num ostr settings
      = match dynamic_cast_custom (domain t) with
        | Some ser_domain => serializeText_of f ser_domain column row_num ostr settings
        | None => serializeText_of f (text t) column row_num ostr settings
        end)
  /\ match deserializeAsText_of f, deserializeText_of f with
     | Some facade, Some method =>
         (f = Escaped \/ f = Quoted \/ f = CSV \/ f = JSON)
         /\ forall column istr settings,
             facade t column istr settings
             = match dynamic_cast_custom (domain t) with
               | Some ser_domain => method ser_domain column istr settings
               | None => method (text t) column istr settings
               end
     | None, None => f = Plain \/ f = XML
     | _, _ => False
     end.
Proof.
  split.
  - intros column row_num ostr settings.
    rewrite serializeAsText_of_handler. unfold text_handler.
    destruct (dynamic_cast_custom (domain t)); reflexivity.
  - destruct f; cbn [deserializeAsText_of deserializeText_of]; auto;
      (split; [tauto | ]); intros column istr settings;
      unfold deserializeAsTextEscaped, deserializeAsTextQuoted,
        deserializeAsTextCSV, deserializeAsTextJSON;
      destruct (dynamic_cast_custom (domain t)); reflexivity.
Qed.

(** C4 (amended). After [appendDomain] of [d1], then of each domain of [rest],
    on a type constructed without a domain, the domain the facade consults is
    the chain head, and the head is the first-attached domain [d1] with the
    later ones appended after it in order: [getName] is the name that head
    reports, and text dispatch goes by the capability of [d1], whatever the
    later domains offer. *)
Theorem facade_consults_chain_head (family : string) (own : TextSerialization)
    (d1 : IDataTypeDomain) (rest : list IDataTypeDomain) :
  let t := fold_left appendDomain (d1 :: rest) (IDataType_new family own) in
  let head := fold_left IDataTypeDomain_appendDomain rest d1 in
  domain t = Some head
  /\ attached t = (chain d1 ++ List.concat (map chain rest))%list
  /\ getName t = IDataTypeDomain_getName head
  /\ dynamic_cast_custom (domain t) = custom_serialization d1
  /\ forall f column row_num ostr settings,
       serializeAsText_of f t column row_num ostr settings
       = match custom_serialization d1 with
         | Some ser_domain => serializeText_of f ser_domain column row_num ostr settings
         | None => serializeText_of f own column row_num ostr settings
         end.
Proof.
  cbv zeta.
  assert (fold_left appendDomain (d1 :: rest) (IDataType_new family own)
          = mkDataType family own
              (Some (fold_left IDataTypeDomain_appendDomain rest d1))) as ->
    by (cbn [fold_left]; apply appendDomain_all).
  assert (dynamic_cast_custom
            (Some (fold_left IDataTypeDomain_appendDomain rest d1))
          = custom_serialization d1) as Hcast
    by (cbn [dynamic_cast_custom]; apply custom_append_all).
  split; [reflexivity | ].
  split; [unfold attached; cbn [domain]; apply chain_append_all | ].
  split; [reflexivity | ].
  split; [exact Hcast | ].
  intros f column row_num ostr settings.
  rewrite serializeAsText_of_handler. unfold text_handler. cbn [domain text].
  rewrite Hcast. destruct (custom_serialization d1); reflexivity.
Qed.

(** C5. [getName] is the attached domain's name when a domain is attached and
    the family name otherwise; a type constructed without a domain is named by
    its family. *)
Theorem getName_domain_or_family (t : IDataType) (family : string)
    (own : TextSerialization) :
  getName t = match domain t with
              | Some d => IDataTypeDomain_getName d
              | None => getFamilyName t
              end
  /\ getName (IDataType_new family own) = family.
Proof.
  split.
  - unfold Facade.getName, doGetName. destruct (domain t); reflexivity.
  - unfold Facade.getName, doGetName, IDataType_new. reflexivity.
Qed.

(** C6. [appendDomain] makes the new domain the head when none is attached and
    otherwise asks the attached head to append it after itself; the domains
    attached before remain, in place and in order, with the members of the new
    domain's chain after them, and nothing else in the type changes. *)
Theorem appendDomain_extends_chain (t : IDataType) (new_domain : IDataTypeDomain) :
  domain (appendDomain t new_domain)
  = Some match domain t with
         | None => new_domain
         | Some head => IDataTypeDomain_appendDomain head new_domain
         end
  /\ attached (appendDomain t new_domain) = (attached t ++ chain new_domain)%list
  /\ getFamilyName (appendDomain t new_domain) = getFamilyName t
  /\ text (appendDomain t new_domain) = text t.
Proof.
  unfold appendDomain, attached.
  destruct (domain t) as [head | ]; cbn [domain getFamilyName text].
  - rewrite chain_appendDomain. auto.
  - auto.
Qed.

(** C9. The base [serializeBinaryBulk] and [deserializeBinaryBulk] throw
    [MULTIPLE_STREAMS_REQUIRED], the base [promoteNumericType] throws
    [DATA_TYPE_CANNOT_BE_PROMOTED] and the base [getSizeOfValueInMemory] throws
    [LOGICAL_ERROR], for every type and every argument, and the buffer and the
    column are as they were. *)
Theorem base_operations_throw (t : IDataType) (column : IColumn)
    (ostr : WriteBuffer) (istr : ReadBuffer) (offset limit : Z) (hint : float) :
  (exists e, serializeBinaryBulk t column ostr offset limit = (Thrown e, ostr)
             /\ code e = MULTIPLE_STREAMS_REQUIRED)
  /\ (exists e, deserializeBinaryBulk t column istr limit hint
                = (Thrown e, (column, istr))
                /\ code e = MULTIPLE_STREAMS_REQUIRED)
  /\ (exists e, promoteNumericType t = Thrown e
                /\ code e = DATA_TYPE_CANNOT_BE_PROMOTED)
  /\ (exists e, getSizeOfValueInMemory t = Thrown e /\ code e = LOGICAL_ERROR).
Proof.
  repeat split; eexists; (split; [reflexivity | reflexivity]).
Qed.

End Types.

(** C3 as stated fails: the facade has no reader for the plain format and none
    for XML. *)
Lemma plain_and_xml_have_no_reader :
  @deserializeAsText_of unit string string unit Plain = None
  /\ @deserializeAsText_of unit string string unit XML = None.
Proof. split; reflexivity. Qed.

(** C4 as stated fails: with a domain without the capability attached first
    and a domain with it attached second, text goes to the type's own writer,
    not to the domain appended last; in the other order it goes to the domain
    attached first. *)
Lemma most_recent_domain_not_consulted :
  map fst (attached FacadeExample.alias_then_IPv4) = ["Alias"; "IPv4"]
  /\ custom_serialization FacadeExample.IPv4_domain = Some (FacadeExample.text_of "IPv4")
  /\ serializeAsTextEscaped FacadeExample.alias_then_IPv4 tt 0 "" tt
     = serializeTextEscaped (FacadeExample.text_of "UInt32") tt 0 "" tt
  /\ serializeAsTextEscaped FacadeExample.alias_then_IPv4 tt 0 "" tt
     <> serializeTextEscaped (FacadeExample.text_of "IPv4") tt 0 "" tt
  /\ map fst (attached FacadeExample.IPv4_then_alias) = ["IPv4"; "Alias"]
  /\ custom_serialization FacadeExample.alias_domain = None
  /\ serializeAsTextEscaped FacadeExample.IPv4_then_alias tt 0 "" tt
     = serializeTextEscaped (FacadeExample.text_of "IPv4") tt 0 "" tt
  /\ serializeAsTextEscaped FacadeExample.IPv4_then_alias tt 0 "" tt
     <> serializeTextEscaped (FacadeExample.text_of "UInt32") tt 0 "" tt.
Proof.
  repeat split; try reflexivity; cbv; intros H; discriminate H.
Qed.

End FacadeFacts.

(** ** The order of binary64 values *)

Module FloatOrder.

Import FloatKey.

Lemma SFcompare_rank (x y : spec_float) :
  match SFcompare x y with
  | None => SFrank x = None \/ SFrank y = None
  | Some c =>
      exists p q, SFrank x = Some p /\ SFrank y = Some q /\
        match c with
        | Lt => lex_lt p q
        | Eq => p = q
        | Gt => lex_lt q p
        end
  end.
Proof.
  destruct x as [sx | sx | | sx mx ex], y as [sy | sy | | sy my ey];
    try destruct sx; try destruct sy; cbn [SFcompare SFrank];
    try (left; reflexivity); try (right; reflexivity);
    try (eexists; eexists; split; [reflexivity | split; [reflexivity | cbn; lia || reflexivity]]).
  - destruct (Z.compare_spec ex ey) as [He | He | He].
    + change (Pos.compare_cont Eq mx my) with (Pos.compare mx my).
      destruct (Pos.compare_spec mx my) as [Hm | Hm | Hm]; cbn [CompOpp];
        eexists; eexists; (split; [reflexivity | split; [reflexivity | ]]).
      * subst; reflexivity.
      * cbn; lia.
      * cbn; lia.
    + eexists; eexists; (split; [reflexivity | split; [reflexivity | cbn; lia]]).
    + eexists; eexists; (split; [reflexivity | split; [reflexivity | cbn; lia]]).
  - destruct (Z.compare_spec ex ey) as [He | He | He].
    + change (Pos.compare_cont Eq mx my) with (Pos.compare mx my).
      destruct (Pos.compare_spec mx my) as [Hm | Hm | Hm];
        eexists; eexists; (split; [reflexivity | split; [reflexivity | ]]).
      * subst; reflexivity.
      * cbn; lia.
      * cbn; lia.
    + eexists; eexists; (split; [reflexivity | split; [reflexivity | cbn; lia]]).
    + eexists; eexists; (split; [reflexivity | split; [reflexivity | cbn; lia]]).
Qed.

Lemma lex_lt_irrefl (p : Z * Z * Z) : ~ lex_lt p p.
Proof. destruct p as [[a b] c]; cbn; lia. Qed.

Lemma lex_lt_asym (p q : Z * Z * Z) : lex_lt p q -> ~ lex_lt q p.
Proof. destruct p as [[a b] c], q as [[a' b'] c']; cbn; lia. Qed.

Lemma lex_lt_trans (p q r : Z * Z * Z) : lex_lt p q -> lex_lt q r -> lex_lt p r.
Proof.
  destruct p as [[a b] c], q as [[a' b'] c'], r as [[a'' b''] c'']; cbn; lia.
Qed.

Lemma SFltb_rank (x y : spec_float) :
  SFltb x y = true <->
  exists p q, SFrank x = Some p /\ SFrank y = Some q /\ lex_lt p q.
Proof.
  unfold SFltb. pose proof (SFcompare_rank x y) as H.
  destruct (SFcompare x y) as [[ | | ] | ].
  - destruct H as (p & q & Hx & Hy & Hc). split; [discriminate | ].
    intros (p' & q' & Hx' & Hy' & Hlt). exfalso.
    rewrite Hx in Hx'; rewrite Hy in Hy'.
    injection Hx' as <-; injection Hy' as <-. subst q.
    exact (lex_lt_irrefl p Hlt).
  - destruct H as (p & q & Hx & Hy & Hc). split; [ | reflexivity].
    intros _. exists p, q. auto.
  - destruct H as (p & q & Hx & Hy & Hc). split; [discriminate | ].
    intros (p' & q' & Hx' & Hy' & Hlt). exfalso.
    rewrite Hx in Hx'; rewrite Hy in Hy'.
    injection Hx' as <-; injection Hy' as <-.
    exact (lex_lt_asym _ _ Hc Hlt).
  - split; [discriminate | ].
    intros (p' & q' & Hx' & Hy' & _).
    destruct H as [H | H]; congruence.
Qed.

Lemma SFleb_rank (x y : spec_float) :
  SFleb x y = true <->
  exists p q, SFrank x = Some p /\ SFrank y = Some q /\ lex_le p q.
Proof.
  unfold SFleb. pose proof (SFcompare_rank x y) as H.
  destruct (SFcompare x y) as [[ | | ] | ].
  - destruct H as (p & q & Hx & Hy & Hc). split; [ | reflexivity].
    intros _. exists p, q. unfold lex_le. auto.
  - destruct H as (p & q & Hx & Hy & Hc). split; [ | reflexivity].
    intros _. exists p, q. unfold lex_le. auto.
  - destruct H as (p & q & Hx & Hy & Hc). split; [discriminate | ].
    intros (p' & q' & Hx' & Hy' & Hle). exfalso.
    rewrite Hx in Hx'; rewrite Hy in Hy'.
    injection Hx' as <-; injection Hy' as <-.
    destruct Hle as [Hlt | ->].
    + exact (lex_lt_asym _ _ Hc Hlt).
    + exact (lex_lt_irrefl _ Hc).
  - split; [discriminate | ].
    intros (p' & q' & Hx' & Hy' & _).
    destruct H as [H | H]; congruence.
Qed.

(** The same facts on primitive doubles. *)
Lemma ltb_rank (x y : float) :
  (x <? y)%float = true <->
  exists p q, rank x = Some p /\ rank y = Some q /\ lex_lt p q.
Proof. rewrite ltb_spec. apply SFltb_rank. Qed.

Lemma leb_rank (x y : float) :
  (x <=? y)%float = true <->
  exists p q, rank x = Some p /\ rank y = Some q /\ lex_le p q.
Proof. rewrite leb_spec. apply SFleb_rank. Qed.

Lemma ltb_leb (x y : float) : (x <? y)%float = true -> (x <=? y)%float = true.
Proof.
  rewrite ltb_rank, leb_rank. intros (p & q & Hx & Hy & Hlt).
  exists p, q. unfold lex_le. auto.
Qed.

Lemma ltb_irrefl (x : float) : (x <? x)%float = false.
Proof.
  destruct (x <? x)%float eqn:E; [ | reflexivity].
  apply ltb_rank in E. destruct E as (p & q & Hx & Hy & Hlt).
  rewrite Hx in Hy. injection Hy as <-.
  destruct (lex_lt_irrefl p Hlt).
Qed.

Lemma ltb_asym (x y : float) : (x <? y)%float = true -> (y <? x)%float = false.
Proof.
  intros H. destruct (y <? x)%float eqn:E; [ | reflexivity].
  apply ltb_rank in H. apply ltb_rank in E.
  destruct H as (p & q & Hx & Hy & Hlt).
  destruct E as (q' & p' & Hy' & Hx' & Hlt').
  rewrite Hx in Hx'; rewrite Hy in Hy'.
  injection Hx' as <-; injection Hy' as <-.
  destruct (lex_lt_asym _ _ Hlt Hlt').
Qed.

Lemma ltb_trans (x y z : float) :
  (x <? y)%float = true -> (y <? z)%float = true -> (x <? z)%float = true.
Proof.
  rewrite !ltb_rank.
  intros (p & q & Hx & Hy & Hpq) (q' & r & Hy' & Hz & Hqr).
  rewrite Hy in Hy'. injection Hy' as <-.
  exists p, r. eauto using lex_lt_trans.
Qed.

(** A double that is neither below nor above a positive finite double is that
    double. *)
Lemma SFrank_positive (x : spec_float) (m : positive) (e : Z) :
  SFrank x = Some (1, e, Z.pos m) -> x = S754_finite false m e.
Proof.
  destruct x as [s | s | | s m' e']; try destruct s; cbn; try discriminate.
  intros H. injection H as -> ->. reflexivity.
Qed.

Lemma leb_not_ltb_eq (x c : float) (m : positive) (e : Z) :
  Prim2SF c = S754_finite false m e ->
  (x <=? c)%float = true -> (x <? c)%float = false -> x = c.
Proof.
  intros Hc Hle Hlt.
  apply leb_rank in Hle. destruct Hle as (p & q & Hx & Hy & [Hpq | ->]).
  - assert ((x <? c)%float = true) as Habs by (apply ltb_rank; eauto).
    congruence.
  - unfold rank in Hx, Hy. rewrite Hc in Hy. cbn in Hy. injection Hy as <-.
    apply SFrank_positive in Hx.
    apply Prim2SF_inj. congruence.
Qed.

(** A non-NaN double that is neither below nor above a positive finite double
    is that double. *)
Lemma not_ltb_eq (x c : float) (m : positive) (e : Z) :
  Prim2SF c = S754_finite false m e ->
  rank x <> None ->
  (x <? c)%float = false -> (c <? x)%float = false -> x = c.
Proof.
  intros Hc Hx Hlt Hgt.
  apply (leb_not_ltb_eq x c m e Hc); [ | exact Hlt].
  destruct (rank x) as [p | ] eqn:Hp; [ | congruence].
  apply leb_rank. exists p, (1, e, Z.pos m).
  assert (rank c = Some (1, e, Z.pos m)) as Hrc by (unfold rank; rewrite Hc; reflexivity).
  split; [exact Hp | split; [exact Hrc | ]].
  destruct p as [[a b] d].
  assert (~ lex_lt (a, b, d) (1, e, Z.pos m)) as N1.
  { intros L. assert ((x <? c)%float = true) by (apply ltb_rank; eauto). congruence. }
  assert (~ lex_lt (1, e, Z.pos m) (a, b, d)) as N2.
  { intros L. assert ((c <? x)%float = true) by (apply ltb_rank; eauto). congruence. }
  right. cbn in N1, N2.
  assert (a = 1 /\ b = e /\ d = Z.pos m) as (-> & -> & ->) by lia.
  reflexivity.
Qed.

Lemma leb_rank_defined (x y : float) : (x <=? y)%float = true -> rank y <> None.
Proof.
  intros H. apply leb_rank in H. destruct H as (p & q & _ & Hy & _). congruence.
Qed.

(** *** Doubling

    [x * 2] on a valid non-negative finite double: the exponent goes up by one
    (to infinity past the largest exponent) for a full mantissa, and the
    mantissa doubles for a subnormal one. *)
Lemma Prim2SF_2 : Prim2SF 2 = SF_two.
Proof. reflexivity. Qed.

Lemma SFmul_two_finite (m : positive) (e : Z) :
  valid_binary (S754_finite false m e) = true ->
  SF64mul (S754_finite false m e) SF_two =
    (if (Z.pos (digits2_pos m) =? 53)%Z
     then if (e + 1 <=? 971)%Z then S754_finite false m (e + 1) else S754_infinity false
     else S754_finite false (xO m) e).
Proof.
  unfold SpecFloat.valid_binary, bounded, canonical_mantissa, fexp, emin, prec, emax.
  intros H. apply andb_true_iff in H. destruct H as [Hc Hb].
  apply Z.eqb_eq in Hc. apply Z.leb_le in Hb.
  unfold SF64mul, SFmul, SF_two. cbn [xorb].
  rewrite Pos.mul_comm. cbn [Pos.mul].
  unfold binary_round_aux, shr_fexp. cbn [Zdigits2 digits2_pos].
  rewrite !Pos2Z.inj_succ.
  set (d := Z.pos (digits2_pos m)) in *.
  assert (1 <= d) by (subst d; lia).
  cbn [shr_record_of_loc].
  destruct (Z.eqb_spec d 53) as [Hd | Hd].
  - match goal with |- context [shr _ _ ?n] =>
      replace n with 52 by (unfold fexp, emin, prec, emax; lia) end.
    cbn [shr iter_pos shr_1 orb shr_m loc_of_shr_record round_nearest_even Zdigits2].
    fold d.
    match goal with |- context [shr _ _ ?n] =>
      replace n with 0 by (unfold fexp, emin, prec, emax; lia) end.
    cbn [shr shr_m].
    replace (e + -51 + 52) with (e + 1) by lia.
    reflexivity.
  - match goal with |- context [shr _ _ ?n] =>
      replace n with 51 by (unfold fexp, emin, prec, emax; lia) end.
    cbn [shr iter_pos shr_1 orb shr_m loc_of_shr_record round_nearest_even
         Zdigits2 digits2_pos].
    rewrite Pos2Z.inj_succ. fold d.
    match goal with |- context [shr _ _ ?n] =>
      replace n with 0 by (unfold fexp, emin, prec, emax; lia) end.
    cbn [shr shr_m].
    replace (e + -51 + 51) with e by lia.
    destruct (Z.leb_spec e (emax - prec)) as [Hle | Hgt]; [reflexivity | ].
    unfold emax, prec in Hgt. lia.
Qed.

(** Doubling a non-negative double never gives a smaller one. *)
Lemma double_not_below (a : float) :
  (0 <=? a)%float = true -> (a * 2 <? a)%float = false.
Proof.
  intros Hpos.
  apply leb_rank in Hpos. destruct Hpos as (z & p & Hz & Ha & Hle).
  unfold rank in Hz. cbn in Hz. injection Hz as <-.
  destruct (a * 2 <? a)%float eqn:E; [exfalso | reflexivity].
  rewrite ltb_spec, mul_spec, Prim2SF_2 in E.
  pose proof (Prim2SF_valid a) as Hv.
  unfold rank in Ha.
  destruct (Prim2SF a) as [s | s | | s m e] eqn:Hpa.
  - cbn in E. discriminate.
  - destruct s; cbn in E; discriminate.
  - cbn in Ha. discriminate.
  - destruct s.
    + cbn in Ha. injection Ha as <-. destruct Hle as [L | L]; cbn in L; [lia | discriminate].
    + rewrite (SFmul_two_finite m e Hv) in E.
      apply SFltb_rank in E. destruct E as (u & v & Hu & Hv' & L).
      cbn in Hv'. injection Hv' as <-.
      destruct (Z.pos (digits2_pos m) =? 53)%Z; [destruct (e + 1 <=? 971)%Z | ];
        cbn in Hu; injection Hu as <-; cbn in L; lia.
Qed.

(** *** Signs

    The conversion of a non-negative integer and the quotient of two doubles
    without a sign bit have no sign bit (or are NaN). *)
Lemma binary_round_aux_sign (mx ex : Z) (lx : location) :
  sign_clear (binary_round_aux prec emax false mx ex lx).
Proof.
  unfold binary_round_aux.
  destruct (shr_fexp prec emax mx ex lx) as [mrs' e'].
  destruct (shr_fexp prec emax _ e' loc_Exact) as [mrs'' e''].
  destruct (shr_m mrs''); [ | destruct (e'' <=? emax - prec)%Z | ]; cbn; auto.
Qed.

Lemma binary_round_sign (m : positive) (e : Z) :
  sign_clear (binary_round prec emax false m e).
Proof.
  unfold binary_round.
  destruct (shl_align m e _) as [mz ez].
  apply binary_round_aux_sign.
Qed.

Lemma binary_normalize_sign (z e : Z) :
  0 <= z -> sign_clear (binary_normalize prec emax z e false).
Proof.
  intros Hz. destruct z as [ | m | m]; cbn [binary_normalize].
  - reflexivity.
  - apply binary_round_sign.
  - lia.
Qed.

Lemma SFldexp_sign (x : spec_float) (e : Z) :
  sign_clear x -> sign_clear (SFldexp prec emax x e).
Proof.
  destruct x as [s | s | | s m ex]; cbn; auto.
  intros ->. apply binary_round_sign.
Qed.

Lemma SFdiv_sign (x y : spec_float) :
  sign_clear x -> sign_clear y -> sign_clear (SF64div x y).
Proof.
  destruct x as [sx | sx | | sx mx ex], y as [sy | sy | | sy my ey];
    cbn; intros; subst; auto.
  destruct (SFdiv_core_binary prec emax (Z.pos mx) ex (Z.pos my) ey) as [[mz ez] lz].
  apply binary_round_aux_sign.
Qed.

Lemma SF2Prim_sign (x : spec_float) :
  sign_clear x -> sign_clear (Prim2SF (SF2Prim x)).
Proof.
  destruct x as [s | s | | s m e]; cbn [sign_clear SF2Prim].
  - intros ->. reflexivity.
  - intros ->. reflexivity.
  - intros _. exact I.
  - intros ->. rewrite FloatLemmas.Z_ldexp_spec.
    apply SFldexp_sign. rewrite of_uint63_spec.
    apply binary_normalize_sign.
    apply Uint63.to_Z_bounded.
Qed.

(** A double without a sign bit that is not NaN is at least zero. *)
Lemma sign_clear_nonneg (a : float) :
  sign_clear (Prim2SF a) -> rank a <> None -> (0 <=? a)%float = true.
Proof.
  intros Hs Hr. apply leb_rank. unfold rank in *.
  exists (0, 0, 0).
  destruct (Prim2SF a) as [s | s | | s m e]; cbn in Hs; subst; cbn in Hr |- *.
  - exists (0, 0, 0). unfold lex_le. auto.
  - exists (2, 0, 0). unfold lex_le. cbn. split; [reflexivity | split; [reflexivity | lia]].
  - congruence.
  - exists (1, e, Z.pos m). unfold lex_le. cbn.
    split; [reflexivity | split; [reflexivity | lia]].
Qed.

Lemma ltb_rank_defined (x y : float) : (x <? y)%float = true -> rank y <> None.
Proof.
  intros H. apply ltb_rank in H. destruct H as (p & q & _ & Hy & _). congruence.
Qed.

End FloatOrder.

(** ** Size-hint estimator *)

Module SizeHintFacts.

Import SizeHint FloatKey FloatOrder.

Local Open Scope float_scope.

Lemma Prim2SF_1024 : Prim2SF 1024 = S754_finite false 4503599627370496 (-42).
Proof. reflexivity. Qed.

(** [std::min(1024., x)] is the smaller of [x] and [1024], whatever [x]. *)
Lemma std_min_fmin (x : float) : std_min 1024 x = fmin x 1024.
Proof.
  unfold std_min, fmin.
  destruct (x <? 1024) eqn:Hlt.
  - rewrite (ltb_leb _ _ Hlt). reflexivity.
  - destruct (x <=? 1024) eqn:Hle; [ | reflexivity].
    symmetry. exact (leb_not_ltb_eq x 1024 _ _ Prim2SF_1024 Hle Hlt).
Qed.

Lemma update_small_batch (column : IColumn) (h : float) :
  (size column <= 10)%Z -> updateAvgValueSizeHint column h = h.
Proof.
  intros Hn. unfold updateAvgValueSizeHint.
  destruct (Z.ltb_spec 10 (size column)); [lia | reflexivity].
Qed.

Lemma update_large_batch (column : IColumn) (h : float) :
  (10 < size column)%Z ->
  updateAvgValueSizeHint column h =
  if h <? batch_avg column then std_min 1024 (batch_avg column)
  else if batch_avg column * 2 <? h then (batch_avg column + h * 3) / 4
  else h.
Proof.
  intros Hn. unfold updateAvgValueSizeHint, batch_avg.
  destruct (Z.ltb_spec 10 (size column)); [reflexivity | lia].
Qed.

(** C7. For every prior hint [h] and every batch with row count [n] and byte
    size [b], [updateAvgValueSizeHint] computes the specified rule: unchanged
    when [n <= 10]; otherwise, with [avg = b / n], [min(avg, 1024.0)] when
    [avg > h], [(avg + h * 3) / 4] when [avg * 2 < h], and unchanged in the
    remaining case. *)
Theorem updateAvgValueSizeHint_rule (h : float) (n b : Z) :
  updateAvgValueSizeHint (mkColumn n b) h = hint_rule h n b.
Proof.
  unfold hint_rule.
  destruct (Z.leb_spec n 10) as [Hn | Hn].
  - apply update_small_batch. exact Hn.
  - rewrite update_large_batch by exact Hn.
    unfold batch_avg; cbn [size byteSize].
    rewrite std_min_fmin. reflexivity.
Qed.

(** C10. On the grow branch (more than 10 rows, batch average above the hint)
    the new hint never exceeds 1024, and when the prior hint was itself above
    1024 the new hint is exactly 1024, hence below the prior hint. *)
Theorem grow_branch_capped (column : IColumn) (h : float) :
  (10 < size column)%Z ->
  (h <? batch_avg column) = true ->
  (updateAvgValueSizeHint column h <=? 1024) = true
  /\ ((1024 <? h) = true ->
      updateAvgValueSizeHint column h = 1024
      /\ (updateAvgValueSizeHint column h <? h) = true).
Proof.
  intros Hn Hgrow.
  rewrite update_large_batch by exact Hn.
  rewrite Hgrow. unfold std_min.
  split.
  - destruct (batch_avg column <? 1024) eqn:Hlt.
    + apply ltb_leb. exact Hlt.
    + reflexivity.
  - intros Hbig.
    pose proof (ltb_trans _ _ _ Hbig Hgrow) as Habove.
    rewrite (ltb_asym _ _ Habove).
    split; [reflexivity | exact Hbig].
Qed.

Lemma grow_branch_capped_witness :
  (updateAvgValueSizeHint (mkColumn 11 33000) 2000 <=? 1024) = true
  /\ ((1024 <? 2000) = true ->
      updateAvgValueSizeHint (mkColumn 11 33000) 2000 = 1024
      /\ (updateAvgValueSizeHint (mkColumn 11 33000) 2000 <? 2000) = true).
Proof.
  apply (grow_branch_capped (mkColumn 11 33000) 2000).
  - cbn. lia.
  - vm_compute. reflexivity.
Defined.

(** Once the hint is [min(avg, 1024)], further batches with the same
    non-negative average leave it there. *)
Lemma target_is_fixed (column : IColumn) :
  (10 < size column)%Z ->
  (0 <=? batch_avg column) = true ->
  updateAvgValueSizeHint column (std_min 1024 (batch_avg column))
  = std_min 1024 (batch_avg column).
Proof.
  intros Hn Hpos.
  rewrite update_large_batch by exact Hn.
  set (a := batch_avg column) in *.
  unfold std_min at 1 3 4.
  destruct (a <? 1024) eqn:Hlt.
  - rewrite ltb_irrefl, (double_not_below a Hpos). reflexivity.
  - destruct (1024 <? a) eqn:Hgt.
    + unfold std_min. rewrite Hlt. reflexivity.
    + assert (a = 1024) as ->.
      { apply (not_ltb_eq a 1024 _ _ Prim2SF_1024); auto.
        exact (leb_rank_defined _ _ Hpos). }
      reflexivity.
Qed.

Lemma feed_fixed (column : IColumn) (h : float) (k : nat) :
  updateAvgValueSizeHint column h = h -> feed k column h = h.
Proof.
  intros Hfix. induction k as [ | k IH]; cbn [feed].
  - reflexivity.
  - rewrite Hfix. exact IH.
Qed.

(** The measured average of a batch with non-negative counts has no sign
    bit. *)
Lemma batch_avg_sign (column : IColumn) :
  (0 <= size column)%Z -> (0 <= byteSize column)%Z ->
  sign_clear (Prim2SF (batch_avg column)).
Proof.
  intros Hn Hb. unfold batch_avg, double_of_size_t.
  rewrite div_spec.
  apply SFdiv_sign; apply SF2Prim_sign; apply binary_normalize_sign; assumption.
Qed.

(** C8 (amended). A batch of at most 10 rows never changes the hint. For
    batches of more than 10 rows with a constant average [s]: when the hint
    starts below [s], it equals [min(s, 1024)] after the first update and after
    every later one; when the hint starts at or above [s] but not above [2 s],
    no update ever changes it. *)
Theorem hint_reaches_target (column : IColumn) (h : float) :
  ((size column <= 10)%Z -> updateAvgValueSizeHint column h = h)
  /\ ((10 < size column)%Z ->
      (0 <= byteSize column)%Z ->
      (h <? batch_avg column) = true ->
      forall k, feed (S k) column h = fmin (batch_avg column) 1024)
  /\ ((10 < size column)%Z ->
      (h <? batch_avg column) = false ->
      (batch_avg column * 2 <? h) = false ->
      forall k, feed k column h = h).
Proof.
  split; [ | split].
  - apply update_small_batch.
  - intros Hn Hb Hgrow k. cbn [feed].
    rewrite update_large_batch by exact Hn.
    rewrite Hgrow, <- std_min_fmin.
    apply feed_fixed. apply target_is_fixed; [exact Hn | ].
    apply sign_clear_nonneg.
    + apply batch_avg_sign; lia.
    + exact (ltb_rank_defined _ _ Hgrow).
  - intros Hn Hge Hband k.
    apply feed_fixed.
    rewrite update_large_batch by exact Hn.
    rewrite Hge, Hband. reflexivity.
Qed.

Lemma hint_reaches_target_witness :
  updateAvgValueSizeHint (batch 10 3000) 5 = 5
  /\ (forall k, feed (S k) (batch 11 10) 5 = fmin (batch_avg (batch 11 10)) 1024)
  /\ (forall k, feed k (batch 11 10) 15 = 15).
Proof.
  split; [ | split].
  - apply (proj1 (hint_reaches_target (batch 10 3000) 5)). cbn. lia.
  - apply (proj1 (proj2 (hint_reaches_target (batch 11 10) 5))).
    + cbn. lia.
    + cbn. lia.
    + vm_compute. reflexivity.
  - apply (proj2 (proj2 (hint_reaches_target (batch 11 10) 15))).
    + cbn. lia.
    + vm_compute. reflexivity.
    + vm_compute. reflexivity.
Defined.

(** C8 as stated fails: with per-value size 10 and initial hint 15 the hint is
    15 after any number of updates, while [min(10, 1024)] is 10. *)
Lemma hint_stuck_above_target :
  batch_avg (batch 11 10) = 10
  /\ fmin (batch_avg (batch 11 10)) 1024 = 10
  /\ (forall k, feed k (batch 11 10) 15 = 15)
  /\ (15 =? 10) = false.
Proof.
  split; [vm_compute; reflexivity | ].
  split; [vm_compute; reflexivity | ].
  split; [ | vm_compute; reflexivity].
  intros k. apply feed_fixed. vm_compute. reflexivity.
Qed.

End SizeHintFacts.

(** * Further properties *)

(** ** Substream path resolver *)

Module StreamNameMore.

Import StreamName StreamPaths StreamNameFacts.

Lemma string_app_inv_head (a x y : string) : a ++ x = a ++ y -> x = y.
Proof.
  induction a as [ | ch a IH]; cbn; intros H.
  - exact H.
  - injection H as H. exact (IH H).
Qed.

Lemma toString_inj (a b : Z) : 0 <= a -> 0 <= b -> toString a = toString b -> a = b.
Proof.
  unfold toString. intros Ha Hb H.
  assert (N.to_uint (Z.to_N a) = N.to_uint (Z.to_N b)) as Hu.
  { pose proof (NilEmpty.usu (N.to_uint (Z.to_N a))) as H1.
    pose proof (NilEmpty.usu (N.to_uint (Z.to_N b))) as H2.
    rewrite H in H1. rewrite H1 in H2. injection H2 as H2. exact H2. }
  apply DecimalN.Unsigned.to_uint_inj in Hu.
  apply Z2N.inj in Hu; assumption.
Qed.

Lemma array_depth_nonneg (path : SubstreamPath) : 0 <= array_depth path.
Proof.
  induction path as [ | elem rest IH]; cbn [array_depth].
  - lia.
  - destruct (type elem); lia.
Qed.

Lemma array_depth_descend (k : nat) : array_depth (descend k) = Z.of_nat k.
Proof.
  induction k as [ | k IH].
  - reflexivity.
  - unfold descend in *. cbn [repeat array_depth marker type]. rewrite IH. lia.
Qed.

Section Resolver.

Variable escapeForFileName : string -> string.
Variable extractTableName : string -> string.

Local Abbreviation getFileNameForStream :=
  (StreamName.getFileNameForStream escapeForFileName extractTableName).
Local Abbreviation is_sizes_of_nested_type :=
  (StreamName.is_sizes_of_nested_type extractTableName).
Local Abbreviation stream_base := (StreamName.stream_base extractTableName).
Local Abbreviation stream_suffixes := (StreamName.stream_suffixes escapeForFileName).

Lemma stream_suffixes_app (p q : SubstreamPath) :
  forall level,
    stream_suffixes level (p ++ q)%list
    = stream_suffixes level p ++ stream_suffixes (level + array_depth p) q.
Proof.
  induction p as [ | elem rest IH]; intros level.
  - cbn. rewrite Z.add_0_r. reflexivity.
  - cbn [app StreamName.stream_suffixes array_depth].
    destruct (type elem); rewrite IH, ?string_app_assoc; try reflexivity.
    f_equal. f_equal. lia.
Qed.

Lemma stream_suffixes_descend (k : nat) :
  forall level, stream_suffixes level (descend k) = "".
Proof.
  induction k as [ | k IH]; intros level.
  - reflexivity.
  - unfold descend in *. cbn [repeat StreamName.stream_suffixes marker type]. apply IH.
Qed.

Lemma unshared_name (column_name : string) (path : SubstreamPath) :
  Z.of_nat (List.length path) < SIZE_MOD ->
  is_sizes_of_nested_type column_name path = false ->
  getFileNameForStream column_name path
  = escapeForFileName column_name ++ stream_suffixes 0 path.
Proof.
  intros Hlen Hflag.
  rewrite getFileNameForStream_unfold by exact Hlen.
  unfold StreamName.stream_base. rewrite Hflag. reflexivity.
Qed.

Lemma long_path_unshared (column_name : string) (path : SubstreamPath) :
  (List.length path <> 1)%nat -> is_sizes_of_nested_type column_name path = false.
Proof.
  intros Hlen. unfold StreamName.is_sizes_of_nested_type.
  destruct (Nat.eqb_spec (List.length path) 1) as [E | E]; [contradiction | reflexivity].
Qed.

(** X1. Sibling columns of one nested table share their first-level sizes
    stream: two columns with the same nested table name, each different from
    that name, get the same file name for the path [ArraySizes]. One level
    down, each column's sizes stream is named after the column itself. *)
Theorem nested_siblings_share_sizes (c1 c2 : string) :
  extractTableName c1 = extractTableName c2 ->
  extractTableName c1 <> c1 ->
  extractTableName c2 <> c2 ->
  getFileNameForStream c1 [marker ArraySizes] = getFileNameForStream c2 [marker ArraySizes]
  /\ getFileNameForStream c1 [marker ArrayElements; marker ArraySizes]
     = escapeForFileName c1 ++ ".size1"
  /\ getFileNameForStream c2 [marker ArrayElements; marker ArraySizes]
     = escapeForFileName c2 ++ ".size1".
Proof.
  intros Hsame H1 H2.
  assert (forall c, extractTableName c <> c ->
            getFileNameForStream c [marker ArraySizes]
            = escapeForFileName (extractTableName c) ++ ".size0") as Hshared.
  { intros c Hc.
    rewrite getFileNameForStream_unfold by (cbn; unfold SIZE_MOD; lia).
    unfold StreamName.stream_base.
    assert (is_sizes_of_nested_type c [marker ArraySizes] = true) as ->.
    { apply is_sizes_of_nested_type_spec. split; [ | exact Hc].
      exists (marker ArraySizes). auto. }
    reflexivity. }
  split; [ | split].
  - rewrite (Hshared c1 H1), (Hshared c2 H2), Hsame. reflexivity.
  - rewrite unshared_name; [reflexivity | cbn; unfold SIZE_MOD; lia | reflexivity].
  - rewrite unshared_name; [reflexivity | cbn; unfold SIZE_MOD; lia | reflexivity].
Qed.

(** X2. Names compose along a path: when neither [p] nor [p ++ q] is the
    shared nested-sizes case, the name for [p ++ q] is the name for [p]
    followed by the suffixes of [q] counted from the nesting depth of [p]. *)
Theorem getFileNameForStream_app (column_name : string) (p q : SubstreamPath) :
  Z.of_nat (List.length (p ++ q)%list) < SIZE_MOD ->
  is_sizes_of_nested_type column_name p = false ->
  is_sizes_of_nested_type column_name (p ++ q)%list = false ->
  getFileNameForStream column_name (p ++ q)%list
  = getFileNameForStream column_name p ++ stream_suffixes (array_depth p) q.
Proof.
  intros Hlen Hp Hpq.
  assert (Z.of_nat (List.length p) < SIZE_MOD) as Hlenp
    by (rewrite length_app in Hlen; lia).
  rewrite (unshared_name column_name (p ++ q)%list Hlen Hpq).
  rewrite (unshared_name column_name p Hlenp Hp).
  rewrite stream_suffixes_app, string_app_assoc. reflexivity.
Qed.

(** X3. [ArrayElements] markers at the end of a path add nothing to the name:
    the elements of an array live under the name of the array itself. In
    particular a path of [ArrayElements] markers only yields the bare escaped
    column name. *)
Theorem trailing_ArrayElements_keep_name (column_name : string)
    (p : SubstreamPath) (k : nat) :
  Z.of_nat (List.length (p ++ descend k)%list) < SIZE_MOD ->
  is_sizes_of_nested_type column_name p = false ->
  getFileNameForStream column_name (p ++ descend k)%list = getFileNameForStream column_name p
  /\ getFileNameForStream column_name (descend k) = escapeForFileName column_name.
Proof.
  intros Hlen Hp.
  assert (forall path, is_sizes_of_nested_type column_name path = false ->
            is_sizes_of_nested_type column_name (path ++ descend k)%list = false) as Hflag.
  { intros path Hpath. destruct k as [ | k].
    - unfold descend. cbn [repeat]. rewrite app_nil_r. exact Hpath.
    - destruct path as [ | e path].
      + unfold StreamName.is_sizes_of_nested_type, descend.
        cbn [repeat app nth_error marker type SubstreamType_eqb].
        rewrite andb_false_r. reflexivity.
      + apply long_path_unshared. unfold descend.
        cbn [app List.length]. rewrite length_app. cbn [repeat List.length]. lia. }
  split.
  - rewrite getFileNameForStream_app; [ | exact Hlen | exact Hp | exact (Hflag p Hp)].
    rewrite stream_suffixes_descend. apply string_app_nil_r.
  - assert (is_sizes_of_nested_type column_name [] = false) as Hnil by reflexivity.
    rewrite (unshared_name column_name (descend k)).
    + rewrite stream_suffixes_descend. apply string_app_nil_r.
    + rewrite length_app in Hlen. lia.
    + exact (Hflag [] Hnil).
Qed.

(** X4. Sizes streams of one column at different nesting depths never share a
    name (outside the shared nested-sizes case): the names differ in the decimal
    level after [.size]. *)
Theorem sizes_names_differ_by_depth (column_name : string) (j k : nat) :
  Z.of_nat j + 1 < SIZE_MOD ->
  Z.of_nat k + 1 < SIZE_MOD ->
  is_sizes_of_nested_type column_name (sizes_at_depth j) = false ->
  is_sizes_of_nested_type column_name (sizes_at_depth k) = false ->
  j <> k ->
  getFileNameForStream column_name (sizes_at_depth j)
  <> getFileNameForStream column_name (sizes_at_depth k).
Proof.
  intros Hj Hk Fj Fk Hne Heq.
  assert (forall n, Z.of_nat n + 1 < SIZE_MOD ->
            is_sizes_of_nested_type column_name (sizes_at_depth n) = false ->
            getFileNameForStream column_name (sizes_at_depth n)
            = escapeForFileName column_name ++ (".size" ++ toString (Z.of_nat n))) as Hname.
  { intros n Hn Fn.
    rewrite unshared_name; [ | | exact Fn].
    - unfold sizes_at_depth. rewrite stream_suffixes_app, stream_suffixes_descend.
      rewrite array_depth_descend. cbn. rewrite string_app_nil_r. reflexivity.
    - unfold sizes_at_depth, descend. rewrite length_app, repeat_length.
      cbn [List.length]. lia. }
  rewrite (Hname j Hj Fj), (Hname k Hk Fk) in Heq.
  apply string_app_inv_head in Heq.
  apply (string_app_inv_head ".size") in Heq.
  apply toString_inj in Heq; lia.
Qed.

(** X5. A tuple field and a top-level column with the dotted name land on the
    same streams: when escaping the dotted name [a.b] gives the escaped [a],
    [%2E] and the escaped [b], the name for column [a] with path
    [TupleElement b :: rest] is the name for column [a.b] with path [rest]
    (outside the shared nested-sizes case for [a.b]). *)
Theorem tuple_element_matches_dotted_column (a b : string) (rest : SubstreamPath) :
  Z.of_nat (List.length (tuple_element b :: rest)) < SIZE_MOD ->
  escapeForFileName (dotted a b) = escapeForFileName a ++ "%2E" ++ escapeForFileName b ->
  is_sizes_of_nested_type (dotted a b) rest = false ->
  getFileNameForStream a (tuple_element b :: rest)
  = getFileNameForStream (dotted a b) rest.
Proof.
  intros Hlen Hesc Hflag.
  assert (is_sizes_of_nested_type a (tuple_element b :: rest) = false) as Htuple.
  { unfold StreamName.is_sizes_of_nested_type.
    cbn [nth_error tuple_element type SubstreamType_eqb].
    rewrite andb_false_r. reflexivity. }
  rewrite (unshared_name a _ Hlen Htuple).
  rewrite (unshared_name (dotted a b) rest); [ | cbn [List.length] in Hlen; lia | exact Hflag].
  rewrite Hesc.
  cbn [StreamName.stream_suffixes tuple_element type tuple_element_name].
  rewrite <- !string_app_assoc. reflexivity.
Qed.

End Resolver.

Lemma nested_siblings_share_sizes_witness :
  getFileNameForStream percent_escape before_first_dot "n.a" [marker ArraySizes]
  = getFileNameForStream percent_escape before_first_dot "n.b" [marker ArraySizes]
  /\ getFileNameForStream percent_escape before_first_dot "n.a"
       [marker ArrayElements; marker ArraySizes]
     = percent_escape "n.a" ++ ".size1"
  /\ getFileNameForStream percent_escape before_first_dot "n.b"
       [marker ArrayElements; marker ArraySizes]
     = percent_escape "n.b" ++ ".size1".
Proof.
  apply (nested_siblings_share_sizes percent_escape before_first_dot "n.a" "n.b").
  - reflexivity.
  - discriminate.
  - discriminate.
Defined.

Lemma getFileNameForStream_app_witness :
  getFileNameForStream percent_escape before_first_dot "x"
    ([marker ArrayElements; marker ArraySizes] ++ [tuple_element "f"; marker ArraySizes])%list
  = getFileNameForStream percent_escape before_first_dot "x"
      [marker ArrayElements; marker ArraySizes]
    ++ stream_suffixes percent_escape
         (array_depth [marker ArrayElements; marker ArraySizes])
         [tuple_element "f"; marker ArraySizes].
Proof.
  apply (getFileNameForStream_app percent_escape before_first_dot "x").
  - vm_compute. reflexivity.
  - reflexivity.
  - reflexivity.
Defined.

Lemma trailing_ArrayElements_keep_name_witness :
  getFileNameForStream percent_escape before_first_dot "n.x"
    ([marker NullMap] ++ descend 2)%list
  = getFileNameForStream percent_escape before_first_dot "n.x" [marker NullMap]
  /\ getFileNameForStream percent_escape before_first_dot "n.x" (descend 2)
     = percent_escape "n.x".
Proof.
  apply (trailing_ArrayElements_keep_name percent_escape before_first_dot "n.x"
           [marker NullMap] 2).
  - vm_compute. reflexivity.
  - reflexivity.
Defined.

Lemma sizes_names_differ_by_depth_witness :
  getFileNameForStream percent_escape before_first_dot "x" (sizes_at_depth 0)
  <> getFileNameForStream percent_escape before_first_dot "x" (sizes_at_depth 1).
Proof.
  apply (sizes_names_differ_by_depth percent_escape before_first_dot "x" 0 1).
  - vm_compute. reflexivity.
  - vm_compute. reflexivity.
  - reflexivity.
  - reflexivity.
  - discriminate.
Defined.

Lemma tuple_element_matches_dotted_column_witness :
  getFileNameForStream percent_escape before_first_dot "n"
    [tuple_element "x"; marker NullMap]
  = getFileNameForStream percent_escape before_first_dot (dotted "n" "x") [marker NullMap].
Proof.
  apply (tuple_element_matches_dotted_column percent_escape before_first_dot "n" "x"
           [marker NullMap]).
  - vm_compute. reflexivity.
  - reflexivity.
  - reflexivity.
Defined.

End StreamNameMore.

(** ** Dispatch facade *)

Module FacadeMore.

Import Facade FacadeFacts.

Section Types.

Context {IColumn WriteBuffer ReadBuffer FormatSettings : Type}.

Local Abbreviation IDataTypeDomain :=
  (Facade.IDataTypeDomain IColumn WriteBuffer ReadBuffer FormatSettings).
Local Abbreviation IDataType :=
  (Facade.IDataType IColumn WriteBuffer ReadBuffer FormatSettings).

Lemma text_handler_kept (t : IDataType) (later : list IDataTypeDomain) :
  domain t <> None ->
  text_handler (fold_left appendDomain later t) = text_handler t.
Proof.
  destruct t as [family own [head | ]]; [intros _ | intros H; contradiction H; reflexivity].
  rewrite appendDomain_all. unfold text_handler.
  cbn [domain text dynamic_cast_custom].
  rewrite custom_append_all. reflexivity.
Qed.

Lemma deserializeAsText_of_handler (f : TextFormat) (t : IDataType) :
  match deserializeAsText_of f, deserializeText_of f with
  | Some facade, Some method => facade t = method (text_handler t)
  | None, None => True
  | _, _ => False
  end.
Proof.
  unfold text_handler.
  destruct f; cbn [deserializeAsText_of deserializeText_of]; try exact I;
    unfold deserializeAsTextEscaped, deserializeAsTextQuoted,
      deserializeAsTextCSV, deserializeAsTextJSON;
    destruct (dynamic_cast_custom (domain t)); reflexivity.
Qed.

(** X6. Once a domain is attached, attaching further domains never changes text
    serialization or deserialization: each of the ten facade operations gives,
    on the type after any number of later [appendDomain] calls, the result it
    gave before them. *)
Theorem later_domains_keep_text (t : IDataType) (later : list IDataTypeDomain)
    (f : TextFormat) :
  domain t <> None ->
  (forall column row_num ostr settings,
      serializeAsText_of f (fold_left appendDomain later t) column row_num ostr settings
      = serializeAsText_of f t column row_num ostr settings)
  /\ match deserializeAsText_of f with
     | Some facade =>
         forall column istr settings,
           facade (fold_left appendDomain later t) column istr settings
           = facade t column istr settings
     | None => f = Plain \/ f = XML
     end.
Proof.
  intros Hdomain.
  pose proof (text_handler_kept t later Hdomain) as Hkept.
  split.
  - intros column row_num ostr settings.
    rewrite !serializeAsText_of_handler, Hkept. reflexivity.
  - pose proof (deserializeAsText_of_handler f t) as Ht.
    pose proof (deserializeAsText_of_handler f (fold_left appendDomain later t)) as Hl.
    destruct f; cbn [deserializeAsText_of deserializeText_of] in *; auto;
      intros column istr settings; rewrite Ht, Hl, Hkept; reflexivity.
Qed.

End Types.

Lemma later_domains_keep_text_witness :
  (forall column row_num ostr settings,
      serializeAsTextEscaped
        (fold_left appendDomain [FacadeExample.alias_domain; FacadeExample.alias_domain]
           (appendDomain FacadeExample.UInt32 FacadeExample.IPv4_domain))
        column row_num ostr settings
      = serializeAsTextEscaped
          (appendDomain FacadeExample.UInt32 FacadeExample.IPv4_domain)
          column row_num ostr settings)
  /\ (forall column istr settings,
        deserializeAsTextEscaped
          (fold_left appendDomain [FacadeExample.alias_domain; FacadeExample.alias_domain]
             (appendDomain FacadeExample.UInt32 FacadeExample.IPv4_domain))
          column istr settings
        = deserializeAsTextEscaped
            (appendDomain FacadeExample.UInt32 FacadeExample.IPv4_domain)
            column istr settings).
Proof.
  apply (later_domains_keep_text
           (appendDomain FacadeExample.UInt32 FacadeExample.IPv4_domain)
           [FacadeExample.alias_domain; FacadeExample.alias_domain] Escaped).
  discriminate.
Defined.

End FacadeMore.

(** ** Size-hint estimator *)

Module FloatMore.

Import FloatKey FloatOrder.

Lemma SFmul_sign (x y : spec_float) :
  sign_clear x -> sign_clear y -> sign_clear (SF64mul x y).
Proof.
  destruct x as [sx | sx | | sx mx ex], y as [sy | sy | | sy my ey];
    cbn; intros; subst; auto.
  apply binary_round_aux_sign.
Qed.

Lemma SFadd_sign (x y : spec_float) :
  sign_clear x -> sign_clear y -> sign_clear (SF64add x y).
Proof.
  destruct x as [sx | sx | | sx mx ex], y as [sy | sy | | sy my ey];
    cbn [sign_clear]; intros; subst; try reflexivity; try exact I.
  unfold SF64add, SFadd. cbn [cond_Zopp].
  apply binary_normalize_sign. lia.
Qed.

Lemma rank_zero : rank 0 = Some (0, 0, 0).
Proof. reflexivity. Qed.

Lemma rank_nan : rank nan = None.
Proof. reflexivity. Qed.

Lemma rank_infinity : rank infinity = Some (2, 0, 0).
Proof. reflexivity. Qed.

Lemma sign_clear_rank (x : spec_float) (p : Z * Z * Z) :
  sign_clear x -> SFrank x = Some p -> lex_le (0, 0, 0) p.
Proof.
  destruct x as [s | s | | s m e]; cbn; intros Hs Hp; subst;
    try discriminate; injection Hp as <-; unfold lex_le; cbn; auto; left; lia.
Qed.

Lemma sign_clear_not_negative (a : float) :
  sign_clear (Prim2SF a) -> (a <? 0)%float = false.
Proof.
  intros Hs. destruct (a <? 0)%float eqn:E; [exfalso | reflexivity].
  apply ltb_rank in E. destruct E as (p & q & Ha & H0 & L).
  rewrite rank_zero in H0. injection H0 as <-.
  destruct (sign_clear_rank _ _ Hs Ha) as [L' | <-].
  - exact (lex_lt_asym _ _ L L').
  - exact (lex_lt_irrefl _ L).
Qed.

(** A double above one that has no sign bit has no sign bit either. *)
Lemma above_sign_clear (x h : float) :
  sign_clear (Prim2SF x) -> (x <? h)%float = true -> sign_clear (Prim2SF h).
Proof.
  intros Hs Hlt. apply ltb_rank in Hlt. destruct Hlt as (p & q & Hx & Hh & L).
  pose proof (sign_clear_rank _ _ Hs Hx) as Hp.
  assert (lex_lt (0, 0, 0) q) as Hq.
  { destruct Hp as [Hp | <-]; [exact (lex_lt_trans _ _ _ Hp L) | exact L]. }
  unfold rank in Hh.
  destruct (Prim2SF h) as [s | s | | s m e]; cbn in Hh |- *;
    try destruct s; try discriminate; try reflexivity;
    injection Hh as <-; cbn in Hq; lia.
Qed.

Lemma ltb_nan_l (x : float) : (nan <? x)%float = false.
Proof.
  destruct (nan <? x)%float eqn:E; [ | reflexivity].
  apply ltb_rank in E. destruct E as (p & q & Hn & _). rewrite rank_nan in Hn. discriminate.
Qed.

Lemma ltb_nan_r (x : float) : (x <? nan)%float = false.
Proof.
  destruct (x <? nan)%float eqn:E; [ | reflexivity].
  apply ltb_rank in E. destruct E as (p & q & _ & Hn & _). rewrite rank_nan in Hn. discriminate.
Qed.

Lemma ltb_infinity_l (x : float) : (infinity <? x)%float = false.
Proof.
  destruct (infinity <? x)%float eqn:E; [exfalso | reflexivity].
  apply ltb_rank in E. destruct E as (p & q & Hi & Hx & L).
  rewrite rank_infinity in Hi. injection Hi as <-.
  unfold rank in Hx.
  destruct (Prim2SF x) as [s | s | | s m e]; cbn in Hx;
    try destruct s; try discriminate; injection Hx as <-; cbn in L; lia.
Qed.

(** Adding infinity to a double without a sign bit that is not NaN gives
    infinity. *)
Lemma add_infinity (a : float) :
  sign_clear (Prim2SF a) -> rank a <> None -> (a + infinity)%float = infinity.
Proof.
  intros Hs Hr. apply Prim2SF_inj. rewrite add_spec.
  change (Prim2SF infinity) with (S754_infinity false).
  unfold rank in Hr.
  destruct (Prim2SF a) as [s | s | | s m e]; cbn in Hs, Hr |- *; subst;
    try reflexivity; congruence.
Qed.

Lemma mul_defined_l (a b : float) : rank (a * b)%float <> None -> rank a <> None.
Proof.
  unfold rank. rewrite mul_spec. intros H Ha. apply H.
  destruct (Prim2SF a) as [s | s | | s m e]; try destruct s; cbn in Ha;
    try discriminate. reflexivity.
Qed.

End FloatMore.

Module SizeHintMore.

Import SizeHint SizeHintRuns FloatKey FloatOrder FloatMore SizeHintFacts.

Local Open Scope float_scope.

Lemma update_nan (column : IColumn) : updateAvgValueSizeHint column nan = nan.
Proof.
  unfold updateAvgValueSizeHint.
  destruct (10 <? size column)%Z; [ | reflexivity].
  rewrite ltb_nan_l, ltb_nan_r. reflexivity.
Qed.

Lemma update_infinity (column : IColumn) :
  (0 <= byteSize column)%Z -> updateAvgValueSizeHint column infinity = infinity.
Proof.
  intros Hb.
  destruct (Z.leb_spec (size column) 10) as [Hn | Hn].
  - apply update_small_batch. exact Hn.
  - rewrite update_large_batch by exact Hn.
    rewrite ltb_infinity_l.
    destruct (batch_avg column * 2 <? infinity) eqn:E; [ | reflexivity].
    change (infinity * 3) with infinity.
    rewrite add_infinity.
    + reflexivity.
    + apply batch_avg_sign; lia.
    + apply (mul_defined_l _ 2). apply ltb_rank in E.
      destruct E as (p & q & Hp & _). congruence.
Qed.

Lemma update_not_negative (column : IColumn) (h : float) :
  (0 <= byteSize column)%Z ->
  (h <? 0) = false ->
  (updateAvgValueSizeHint column h <? 0) = false.
Proof.
  intros Hb Hh.
  destruct (Z.leb_spec (size column) 10) as [Hn | Hn].
  - rewrite update_small_batch by exact Hn. exact Hh.
  - rewrite update_large_batch by exact Hn.
    assert (sign_clear (Prim2SF (batch_avg column))) as Havg
      by (apply batch_avg_sign; lia).
    destruct (h <? batch_avg column) eqn:Hgrow.
    + unfold std_min. destruct (batch_avg column <? 1024).
      * apply sign_clear_not_negative. exact Havg.
      * reflexivity.
    + destruct (batch_avg column * 2 <? h) eqn:Hdecay; [ | exact Hh].
      apply sign_clear_not_negative.
      assert (sign_clear (Prim2SF (batch_avg column * 2))) as Hdouble.
      { rewrite mul_spec. apply SFmul_sign; [exact Havg | reflexivity]. }
      pose proof (above_sign_clear _ _ Hdouble Hdecay) as Hsign.
      rewrite div_spec, add_spec, mul_spec.
      apply SFdiv_sign; [ | reflexivity].
      apply SFadd_sign; [exact Havg | ].
      apply SFmul_sign; [exact Hsign | reflexivity].
Qed.

(** X7. A hint that is NaN stays NaN under any sequence of batches, and a hint
    that is [+infinity] stays [+infinity] under any sequence of batches with
    non-negative byte sizes: the estimator never repairs a non-finite hint. *)
Theorem non_finite_hint_is_kept (columns : list IColumn) :
  read_batches columns nan = nan
  /\ (Forall (fun column => (0 <= byteSize column)%Z) columns ->
      read_batches columns infinity = infinity).
Proof.
  unfold read_batches. split.
  - induction columns as [ | column rest IH]; cbn [fold_left].
    + reflexivity.
    + rewrite update_nan. exact IH.
  - intros Hall. induction Hall as [ | column rest Hb _ IH]; cbn [fold_left].
    + reflexivity.
    + rewrite (update_infinity column Hb). exact IH.
Qed.

Lemma non_finite_hint_is_kept_witness :
  read_batches [batch 11 10; batch 5 7; batch 100 4000] nan = nan
  /\ read_batches [batch 11 10; batch 5 7; batch 100 4000] infinity = infinity.
Proof.
  destruct (non_finite_hint_is_kept [batch 11 10; batch 5 7; batch 100 4000])
    as [Hnan Hinf].
  split; [exact Hnan | ].
  apply Hinf. repeat constructor; cbn; lia.
Defined.

(** X8. The hint never becomes negative: starting from a hint that is not
    below zero, after any sequence of batches with non-negative byte sizes the
    hint is not below zero. *)
Theorem hint_never_negative (columns : list IColumn) (h : float) :
  Forall (fun column => (0 <= byteSize column)%Z) columns ->
  (h <? 0) = false ->
  (read_batches columns h <? 0) = false.
Proof.
  unfold read_batches. intros Hall. revert h.
  induction Hall as [ | column rest Hb _ IH]; intros h Hh; cbn [fold_left].
  - exact Hh.
  - apply IH. apply update_not_negative; assumption.
Qed.

Lemma hint_never_negative_witness :
  (read_batches [batch 11 10; batch 20 0; batch 5 7; batch 100 4000] 50 <? 0) = false.
Proof.
  apply (hint_never_negative [batch 11 10; batch 20 0; batch 5 7; batch 100 4000] 50).
  - repeat constructor; cbn; lia.
  - vm_compute. reflexivity.
Defined.

End SizeHintMore.
